(** * The flash-log preload shim ([utils/ld-preload-flash-harness/path-mapping.c])

    A shallow embedding of the three hooked entry points [fopen64], [fwrite]
    and [truncate], of the helper [endswith] and of the global [fake_log],
    together with the properties of the shim that its description states.

    The source is taken with [DEBUG] defined as [false], as it is written:
    a [DBG(...)] statement is [if (false) {...}] and does nothing. *)

From Stdlib Require Import ZArith Lia Strings.Byte Strings.String.
From stdpp Require Import base decidable option list gmap.

#[local] Open Scope Z_scope.

(** ** C values *)

#[global] Instance byte_eq_dec : EqDecision byte := Byte.byte_eq_dec.

(** A [const char*] (or the [const void*] handed to [fwrite]).  [None] is the
    null pointer.  [Some s] points at an object whose bytes, from the pointed
    byte on, are [s]; the byte after the last one of [s] is the terminating
    zero that C requires of a string, so that [s] may or may not hold zero
    bytes of its own. *)
Definition cptr : Type := option (list byte).

(** The unsigned value of a [char], as [strncmp] compares it. *)
Definition uchar (c : byte) : Z := Z.of_N (Byte.to_N c).

(** The byte at the head of a string; reading at the end yields the
    terminator. *)
Definition peek (s : list byte) : byte :=
  match s with
  | [] => x00
  | c :: _ => c
  end.

(** [strlen]: the number of bytes before the first zero byte.  A length is a
    [nat]: no object has the [2^64] bytes at which a [size_t] would wrap. *)
Fixpoint strlen (s : list byte) : nat :=
  match s with
  | [] => O
  | c :: s' => if decide (c = x00) then O else S (strlen s')
  end.

(** The C string a pointer denotes: the bytes before the first zero.  This is
    what the [%s] conversion of [fprintf] formats. *)
Definition c_str (s : list byte) : list byte := take (strlen s) s.

(** [strncmp]: compares at most [n] characters, stops after a zero byte, and
    yields the difference of the first two characters that differ. *)
Fixpoint strncmp (s1 s2 : list byte) (n : nat) : Z :=
  match n with
  | O => 0
  | S n' =>
      let c1 := peek s1 in
      let c2 := peek s2 in
      if decide (c1 = c2)
      then if decide (c1 = x00) then 0 else strncmp (tail s1) (tail s2) n'
      else uchar c1 - uchar c2
  end.

(** [int endswith(const char* haystack, const char* needle)] *)
Definition endswith (haystack needle : cptr) : Z :=
  match haystack, needle with
  | Some h, Some n =>
      let haystack_len := strlen h in
      let needle_len := strlen n in
      (* needle_len > haystack_len *)
      if decide (haystack_len < needle_len)%nat then 0
      else
        (* haystack + haystack_len - needle_len *)
        if decide (strncmp (drop (haystack_len - needle_len) h) n needle_len = 0)
        then 1 else 0
  | _, _ => -1
  end.

(** [const char* PATH_ENDING] *)
Definition PATH_ENDING : cptr :=
  Some (list_byte_of_string ".macromedia/Flash_Player/Logs/flashlog.txt").


(** ** Machine integers *)

(** [size_t] is 64 bits wide: arithmetic is modulo [2^64]. *)
Definition to_size_t (z : Z) : Z := z mod 2 ^ 64.

(** Conversion to the 32-bit [int]. *)
Definition to_int (z : Z) : Z := (z + 2 ^ 31) mod 2 ^ 32 - 2 ^ 31.

(** A [FILE*] is the address of a [FILE] object; the null pointer is [0]. *)
Definition NULL : Z := 0.

(** The literal ["/dev/null"] of [fopen64]. *)
Definition dev_null : cptr := Some (list_byte_of_string "/dev/null").

(** ** The C library under the shim *)

(** What the shim calls and reads below itself, over the state [OS] that
    glibc and the kernel own (file system, open streams, the buffer of
    [stdout]).  The first three fields are the function pointers that
    [init_preload] obtains with [dlsym(RTLD_NEXT, ...)], each with the type its
    typedef gives it: [orig_fopen_func_type], [orig_fwrite_func_type] (whose
    value is an [int]) and [orig_truncate_func_type] (whose length is an
    [int]).  Every function returns its C result and the next state. *)
Class Glibc (OS : Type) := {
  glibc_fopen64 : cptr → cptr → OS → Z * OS;
  glibc_fwrite : cptr → Z → Z → Z → OS → Z * OS;
  glibc_truncate : cptr → Z → OS → Z * OS;
  (** [fprintf(stdout, "%s", s)], on the bytes that [%s] formats *)
  stdout_fprintf_s : list byte → OS → Z * OS;
  (** [fflush(stdout)] *)
  stdout_fflush : OS → Z * OS;
  (** [stream->_fileno]; [None] when [stream] is not the address of a [FILE]
      object *)
  FILE_fileno : Z → OS → option Z;
}.

(** The two places of [fopen64] that call [glibc_fopen64]; the log of calls
    records at which of them an open was made. *)
Inductive site : Set :=
  | Site_discard      (* glibc_fopen64("/dev/null", flags) *)
  | Site_passthrough. (* glibc_fopen64(pathname, flags) *)

(** A call that the shim made into the C library, with its result. *)
Inductive event : Type :=
  | Ev_fopen64 (s : site) (path flags : cptr) (ret : Z)
  | Ev_fwrite (ptr : cptr) (size nmemb : Z) (stream : Z) (ret : Z)
  | Ev_truncate (path : cptr) (length : Z) (ret : Z)
  | Ev_fprintf_stdout (s : list byte) (ret : Z)
  | Ev_fflush_stdout (ret : Z).

(** An event that is not an open made at the discard site. *)
Definition other_site (ev : event) : Prop :=
  ∀ path flags r, ev ≠ Ev_fopen64 Site_discard path flags r.

(** ** The process *)

(** The state of the process as the shim sees it: its global
    [FILE* fake_log], the state of the C library, and the calls made into the
    library so far (oldest first). *)
Record process (OS : Type) : Type := Process {
  fake_log : Z;
  os : OS;
  calls : list event;
}.
Arguments Process {OS} _ _ _.
Arguments fake_log {OS} _.
Arguments os {OS} _.
Arguments calls {OS} _.

(** Code of the shim: a state transformer that may go wrong ([None]: a null
    or dangling pointer is dereferenced). *)
Definition M (OS A : Type) : Type := process OS → option (A * process OS).

#[global] Instance M_ret {OS} : MRet (M OS) := λ A a p, Some (a, p).
#[global] Instance M_bind {OS} : MBind (M OS) := λ A B f m p,
  match m p with
  | Some (a, p') => f a p'
  | None => None
  end.

(** A hooked call as the host program makes it. *)
Inductive hooked_call : Type :=
  | Call_fopen64 (pathname flags : cptr)
  | Call_fwrite (ptr : cptr) (size nmemb : Z) (stream : Z)
  | Call_truncate (pathname : cptr) (length : Z).

Section shim.

Context {OS : Type} `{!Glibc OS}.

Definition get_fake_log : M OS Z := λ p, Some (fake_log p, p).

Definition set_fake_log (v : Z) : M OS unit := λ p,
  Some ((), Process v (os p) (calls p)).

(** A library call: run it on the library's state and log it. *)
Definition libcall (f : OS → Z * OS) (ev : Z → event) : M OS Z := λ p,
  let '(r, o) := f (os p) in
  Some (r, Process (fake_log p) o (calls p ++ [ev r])).

(** [stream->_fileno] *)
Definition deref_fileno (stream : Z) : M OS Z := λ p,
  match FILE_fileno stream (os p) with
  | Some d => Some (d, p)
  | None => None
  end.

(** [fprintf(stdout, "%s", (const char* ) ptr)]; the [%s] of a null pointer
    is undefined. *)
Definition fprintf_stdout_s (ptr : cptr) : M OS Z :=
  match ptr with
  | Some s => libcall (stdout_fprintf_s (c_str s)) (Ev_fprintf_stdout (c_str s))
  | None => λ _, None
  end.

(** [FILE* fopen64(const char *pathname, const char* flags)] *)
Definition fopen64 (pathname flags : cptr) : M OS Z :=
  if decide (endswith pathname PATH_ENDING = 1) then
    r ← libcall (glibc_fopen64 dev_null flags)
                (Ev_fopen64 Site_discard dev_null flags);
    set_fake_log r;;
    get_fake_log
  else
    libcall (glibc_fopen64 pathname flags)
            (Ev_fopen64 Site_passthrough pathname flags).

(** [int truncate(const char* pathname, __off_t length)], compiled when
    [HOOK_TRUNCATE] is defined.  The pointer [glibc_truncate] takes an
    [int], to which [length] is converted. *)
Definition truncate (pathname : cptr) (length : Z) : M OS Z :=
  if decide (endswith pathname PATH_ENDING = 1) then
    mret 0
  else
    libcall (glibc_truncate pathname (to_int length))
            (Ev_truncate pathname (to_int length)).

(** [fake_log != 0 && stream->_fileno == fake_log->_fileno] *)
Definition is_fake_log (stream : Z) : M OS bool :=
  fl ← get_fake_log;
  if decide (fl ≠ NULL) then
    a ← deref_fileno stream;
    b ← deref_fileno fl;
    mret (bool_decide (a = b))
  else mret false.

(** [size_t fwrite(const void* ptr, size_t size, size_t nmemb, FILE* stream)].
    The value of [glibc_fwrite], an [int], is converted to the [size_t]
    that [fwrite] returns. *)
Definition fwrite (ptr : cptr) (size nmemb : Z) (stream : Z) : M OS Z :=
  sink ← is_fake_log stream;
  if sink : bool then
    fprintf_stdout_s ptr;;
    libcall stdout_fflush Ev_fflush_stdout;;
    mret (to_size_t (size * nmemb))
  else
    r ← libcall (glibc_fwrite ptr size nmemb stream)
                (Ev_fwrite ptr size nmemb stream);
    mret (to_size_t r).

Definition exec (c : hooked_call) : M OS Z :=
  match c with
  | Call_fopen64 pathname flags => fopen64 pathname flags
  | Call_fwrite ptr size nmemb stream => fwrite ptr size nmemb stream
  | Call_truncate pathname length => truncate pathname length
  end.

(** What the host program does, one step at a time: a hooked call, with its
    result, or anything else (closing or reading a stream, calling another
    function of the library), which changes the library's state only. *)
Inductive action : Type :=
  | Hooked (c : hooked_call) (r : Z)
  | Other.

Inductive step : process OS → action → process OS → Prop :=
  | step_hooked c p r p' :
      exec c p = Some (r, p') → step p (Hooked c r) p'
  | step_other p o :
      step p Other (Process (fake_log p) o (calls p)).

Inductive steps : process OS → list action → process OS → Prop :=
  | steps_nil p : steps p [] p
  | steps_cons p a p' acts p'' :
      step p a p' → steps p' acts p'' → steps p (a :: acts) p''.

(** The process when the library has been loaded: [FILE* fake_log = 0]. *)
Definition loaded (p : process OS) : Prop :=
  fake_log p = NULL ∧ calls p = [].

(** An open of a path with the configured ending that yields a stream. *)
Definition successful_matching_open (a : action) : Prop :=
  ∃ pathname flags r,
    a = Hooked (Call_fopen64 pathname flags) r ∧
    endswith pathname PATH_ENDING = 1 ∧ r ≠ NULL.

(** The result of the latest open made at the discard site of [fopen64],
    null when there is none. *)
Definition last_discard (cs : list event) : Z :=
  foldl (λ acc ev,
           match ev with
           | Ev_fopen64 Site_discard _ _ r => r
           | _ => acc
           end) NULL cs.

(** [fake_log] holds the result of the latest open made at the discard
    site of [fopen64] (null before the first one), and every open made
    there is an open of ["/dev/null"]. *)
Definition fake_log_from_discard (p : process OS) : Prop :=
  fake_log p = last_discard (calls p) ∧
  ∀ path flags r,
    Ev_fopen64 Site_discard path flags r ∈ calls p → path = dev_null.

End shim.

(** How a call moved the log from [p] to [p']: by printing to [stdout] and
    flushing it and nothing else, or by one call of [glibc_fwrite]. *)
Definition redirected {OS} (p p' : process OS) : Prop :=
  ∃ s r1 r2,
    calls p' = calls p ++ [Ev_fprintf_stdout s r1; Ev_fflush_stdout r2].

Definition passed_through {OS} (ptr : cptr) (size nmemb stream : Z)
    (p p' : process OS) : Prop :=
  ∃ r, calls p' = calls p ++ [Ev_fwrite ptr size nmemb stream r].

(** A hooked open of a path with the configured ending, whatever it
    yields. *)
Definition matching_open (a : action) : Prop :=
  ∃ pathname flags r,
    a = Hooked (Call_fopen64 pathname flags) r ∧
    endswith pathname PATH_ENDING = 1.

(** ** A small C library to run the shim on *)

Module Sim.

(** Open streams ([FILE] address to descriptor), what was written to each
    descriptor, the paths truncated, and [stdout]: its buffer, what reached
    descriptor 1, and whether descriptor 1 is closed. *)
Record state : Type := State {
  streams : gmap Z Z;
  next_fd : Z;
  written : list (Z * list byte);
  truncated : list (list byte * Z);
  stdout_buf : list byte;
  stdout_out : list byte;
  stdout_closed : bool;
}.

Definition boot : state := State ∅ 3 [] [] [] [] false.

(** A mode is valid when it starts with [r], [w] or [a]. *)
Definition valid_mode (flags : cptr) : bool :=
  match flags with
  | Some (c :: _) =>
      bool_decide (c = "r"%byte ∨ c = "w"%byte ∨ c = "a"%byte)
  | _ => false
  end.

Definition sim_fopen64 (path flags : cptr) (st : state) : Z * state :=
  match path with
  | Some s =>
      if valid_mode flags && negb (bool_decide (c_str s = [])) then
        let fd := next_fd st in
        let addr := 4096 + 256 * fd in
        (addr, State (<[addr := fd]> (streams st)) (fd + 1) (written st)
                 (truncated st) (stdout_buf st) (stdout_out st)
                 (stdout_closed st))
      else (NULL, st)
  | None => (NULL, st)
  end.

Definition sim_fwrite (ptr : cptr) (size nmemb stream : Z) (st : state)
    : Z * state :=
  match ptr, streams st !! stream with
  | Some s, Some fd =>
      (nmemb, State (streams st) (next_fd st)
                (written st ++ [(fd, take (Z.to_nat (size * nmemb)) s)])
                (truncated st) (stdout_buf st) (stdout_out st)
                (stdout_closed st))
  | _, _ => (0, st)
  end.

Definition sim_truncate (path : cptr) (length : Z) (st : state) : Z * state :=
  match path with
  | Some s =>
      (0, State (streams st) (next_fd st) (written st)
            (truncated st ++ [(c_str s, length)]) (stdout_buf st)
            (stdout_out st) (stdout_closed st))
  | None => (-1, st)
  end.

Definition sim_fprintf (s : list byte) (st : state) : Z * state :=
  (Z.of_nat (length s),
   State (streams st) (next_fd st) (written st) (truncated st)
     (stdout_buf st ++ s) (stdout_out st) (stdout_closed st)).

Definition sim_fflush (st : state) : Z * state :=
  if stdout_closed st then (-1, st)
  else
    (0, State (streams st) (next_fd st) (written st) (truncated st)
          [] (stdout_out st ++ stdout_buf st) false).

#[global] Instance glibc : Glibc state := {|
  glibc_fopen64 := sim_fopen64;
  glibc_fwrite := sim_fwrite;
  glibc_truncate := sim_truncate;
  stdout_fprintf_s := sim_fprintf;
  stdout_fflush := sim_fflush;
  FILE_fileno := λ stream st, streams st !! stream;
|}.

(** The process right after the library is loaded. *)
Definition start : process state := Process NULL boot [].

Definition bytes : string → list byte := list_byte_of_string.

(** The path of the scenario of the description. *)
Definition flashlog : cptr :=
  Some (bytes "app.macromedia/Flash_Player/Logs/flashlog.txt").

(** ["ab\0cd"] *)
Definition ab0cd : list byte := bytes "ab" ++ [x00] ++ bytes "cd".

(** The process after [fopen64(flashlog, "w")] from [start]: the stream at
    4864 wraps descriptor 3. *)
Definition opened : process state :=
  Process 4864 (State {[4864 := 3]} 4 [] [] [] [] false)
    [Ev_fopen64 Site_discard dev_null (Some (bytes "w")) 4864].

(** The same with a second [FILE] object, at 8192, on descriptor 3 (as
    [fdopen] makes one), and one at 5120 on descriptor 4. *)
Definition aliased : process state :=
  Process 4864
    (State (<[5120 := 4]> (<[8192 := 3]> {[4864 := 3]})) 5 [] [] [] [] false)
    [Ev_fopen64 Site_discard dev_null (Some (bytes "w")) 4864].

(** [opened] with descriptor 1 closed: flushing [stdout] fails. *)
Definition opened_no_stdout : process state :=
  Process 4864 (State {[4864 := 3]} 4 [] [] [] [] true)
    [Ev_fopen64 Site_discard dev_null (Some (bytes "w")) 4864].

(** The process after a second [fopen64(flashlog, "w")], from [opened]: the
    new stream, at 5120, wraps descriptor 4. *)
Definition opened_twice : process state :=
  Process 5120 (State (<[5120 := 4]> {[4864 := 3]}) 5 [] [] [] [] false)
    [Ev_fopen64 Site_discard dev_null (Some (bytes "w")) 4864;
     Ev_fopen64 Site_discard dev_null (Some (bytes "w")) 5120].

(** The run that reuses the address of the log stream: the log is opened at
    4864, the host closes it (descriptor 3 and the address 4864 are free
    again, as in [boot]), and an open of ["/tmp/other.txt"] is given the
    stream at 4864. *)
Definition other_txt : cptr := Some (bytes "/tmp/other.txt").

Definition reuse_run : list action :=
  [Hooked (Call_fopen64 flashlog (Some (bytes "w"))) 4864;
   Other;
   Hooked (Call_fopen64 other_txt (Some (bytes "w"))) 4864].

Definition reopened : process state :=
  Process 4864 (State {[4864 := 3]} 4 [] [] [] [] false)
    [Ev_fopen64 Site_discard dev_null (Some (bytes "w")) 4864;
     Ev_fopen64 Site_passthrough other_txt (Some (bytes "w")) 4864].

(** [opened] after the host closed the stream at 4864: no [FILE] object is
    left there. *)
Definition closed : process state :=
  Process 4864 (State ∅ 4 [] [] [] [] false)
    [Ev_fopen64 Site_discard dev_null (Some (bytes "w")) 4864].

End Sim.

(** ** The path matcher *)

Section strings.

Implicit Types s h n : list byte.

Lemma strlen_le s : (strlen s ≤ length s)%nat.
Proof. induction s as [|c s IH]; simpl; [lia|]. case_decide; lia. Qed.

Lemma strlen_cons_pos c s k :
  (S k ≤ strlen (c :: s))%nat → c ≠ x00 ∧ (k ≤ strlen s)%nat.
Proof. simpl. case_decide; [lia|]. split; [done|lia]. Qed.

Lemma strlen_pos_inv s k :
  (S k ≤ strlen s)%nat → ∃ c s', s = c :: s' ∧ c ≠ x00 ∧ (k ≤ strlen s')%nat.
Proof.
  destruct s as [|c s']; simpl; [lia|].
  intros H. apply strlen_cons_pos in H. eauto.
Qed.

Lemma strlen_drop s k : (k ≤ strlen s)%nat → strlen (drop k s) = (strlen s - k)%nat.
Proof.
  revert s. induction k as [|k IH]; intros s Hk.
  - rewrite drop_0. lia.
  - destruct (strlen_pos_inv _ _ Hk) as (c & s' & -> & Hc & Hk').
    simpl. case_decide; [done|]. by apply IH.
Qed.

Lemma strlen_c_str s : length (c_str s) = strlen s.
Proof. unfold c_str. rewrite length_take. pose proof (strlen_le s). lia. Qed.

Lemma uchar_inj c1 c2 : uchar c1 = uchar c2 → c1 = c2.
Proof.
  unfold uchar. intros H. apply N2Z.inj in H.
  pose proof (Byte.of_to_N c1) as H1. rewrite H, Byte.of_to_N in H1.
  congruence.
Qed.

(** Over a range free of zero bytes on both sides, [strncmp] vanishes
    exactly when the two ranges hold the same bytes. *)
Lemma strncmp_0_iff k : ∀ s1 s2,
  (k ≤ strlen s1)%nat → (k ≤ strlen s2)%nat →
  strncmp s1 s2 k = 0 ↔ take k s1 = take k s2.
Proof.
  induction k as [|k IH]; intros s1 s2 H1 H2; [done|].
  destruct (strlen_pos_inv _ _ H1) as (c1 & t1 & -> & Hc1 & Hk1).
  destruct (strlen_pos_inv _ _ H2) as (c2 & t2 & -> & Hc2 & Hk2).
  cbn [strncmp peek tail take].
  case_decide as Hc.
  - rewrite <- Hc. case_decide; [done|]. rewrite (IH t1 t2 Hk1 Hk2).
    split; [by intros ->|]. by intros [= ?].
  - split.
    + intros Hd. exfalso. apply Hc, uchar_inj. lia.
    + by intros [= ? _].
Qed.

Lemma take_drop_c_str h k j :
  (k + j = strlen h)%nat → take j (drop k h) = drop k (c_str h).
Proof.
  intros Hkj. unfold c_str. rewrite <- Hkj.
  by rewrite take_drop_commute.
Qed.

Lemma take_strlen_c_str n : take (strlen n) n = c_str n.
Proof. done. Qed.

(** The outcome of [endswith] on two strings, in terms of their contents. *)
Lemma endswith_present h n :
  endswith (Some h) (Some n) =
    if decide ((strlen n ≤ strlen h)%nat ∧
               drop (strlen h - strlen n) (c_str h) = c_str n)
    then 1 else 0.
Proof.
  unfold endswith. cbv zeta.
  destruct (decide (strlen h < strlen n)%nat) as [Hlt|Hge].
  - rewrite decide_False; [done|]. intros [? _]. lia.
  - assert (Hle : (strlen n ≤ strlen h)%nat) by lia.
    pose proof (strncmp_0_iff (strlen n)
                  (drop (strlen h - strlen n) h) n) as Hiff.
    rewrite strlen_drop in Hiff by lia.
    rewrite (take_drop_c_str h (strlen h - strlen n) (strlen n)) in Hiff by lia.
    rewrite take_strlen_c_str in Hiff.
    specialize (Hiff ltac:(lia) ltac:(lia)).
    destruct (decide (strncmp _ _ _ = 0)) as [He|He].
    + rewrite decide_True; [done|]. split; [done|]. by apply Hiff.
    + rewrite decide_False; [done|]. intros [_ Hd]. by apply He, Hiff.
Qed.

(** The last [strlen n] bytes of [h] are [n]: the same as [n] being a
    suffix of [h]. *)
Lemma drop_eq_suffix (h n : list byte) :
  (length n ≤ length h)%nat ∧ drop (length h - length n) h = n ↔
  n `suffix_of` h.
Proof.
  split.
  - intros [_ <-]. apply suffix_drop.
  - intros [k ->]. rewrite length_app. split; [lia|].
    replace (length k + length n - length n)%nat with (length k) by lia.
    by rewrite drop_app_length.
Qed.

Lemma endswith_null_iff (haystack needle : cptr) :
  endswith haystack needle = -1 ↔ haystack = None ∨ needle = None.
Proof.
  destruct haystack as [h|], needle as [n|];
    try (split; [intros _; auto | done]).
  rewrite endswith_present. split; [|by intros [|]].
  case_decide; lia.
Qed.

Lemma endswith_match_iff h n :
  endswith (Some h) (Some n) = 1 ↔
  (strlen n ≤ strlen h)%nat ∧
  drop (strlen h - strlen n) (c_str h) = c_str n.
Proof. rewrite endswith_present. case_decide; split; (done || lia). Qed.

End strings.

(** C3.  [endswith] yields -1 (indeterminate) exactly when one of its
    arguments is the null pointer, and yields 1 (match) exactly when both are
    present and the last [strlen needle] bytes of the haystack string are,
    byte for byte, the needle string. *)
Theorem endswith_spec (haystack needle : cptr) :
  (endswith haystack needle = -1 ↔ haystack = None ∨ needle = None) ∧
  (endswith haystack needle = 1 ↔
     ∃ h n, haystack = Some h ∧ needle = Some n ∧
            (strlen n ≤ strlen h)%nat ∧
            drop (strlen h - strlen n) (c_str h) = c_str n).
Proof.
  split; [apply endswith_null_iff|].
  destruct haystack as [h|], needle as [n|];
    try (split; [cbn; lia | by intros (? & ? & ? & ? & _)]).
  rewrite endswith_match_iff. split.
  - intros [? ?]. by exists h, n.
  - by intros (? & ? & [= <-] & [= <-] & ? & ?).
Qed.

(** The comparison does not fold case. *)
Example endswith_case_sensitive :
  endswith (Some (list_byte_of_string "a.macromedia/Flash_Player/Logs/FLASHLOG.TXT"))
           PATH_ENDING = 0.
Proof. reflexivity. Qed.

(** C4, as stated, fails: on ["abc"] and ["xy"] the result is 0 although the
    needle is the shorter string. *)
Lemma endswith_no_match_shorter_needle :
  ¬ (endswith (Some (list_byte_of_string "abc")) (Some (list_byte_of_string "xy")) = 0 ↔
     (strlen (list_byte_of_string "abc") < strlen (list_byte_of_string "xy"))%nat).
Proof. intros [H _]. specialize (H eq_refl). vm_compute in H. lia. Qed.

(** C4, amended.  On two present strings [endswith] yields 0 (no match)
    exactly when the needle is longer than the haystack or the last
    [strlen needle] bytes of the haystack differ from the needle. *)
Theorem endswith_no_match_iff (h n : list byte) :
  endswith (Some h) (Some n) = 0 ↔
  (strlen h < strlen n)%nat ∨
  drop (strlen h - strlen n) (c_str h) ≠ c_str n.
Proof.
  rewrite endswith_present. case_decide as Hd; split; try done.
  - intros [?|?]; [lia|]. by destruct Hd.
  - intros _. destruct (decide (strlen h < strlen n)%nat); [by left|].
    right. intros ?. apply Hd. split; [lia|done].
Qed.

(** ** The hooked functions *)

Section shim_facts.

Context {OS : Type} `{!Glibc OS}.

Implicit Types (p : process OS) (pathname flags ptr : cptr).

Lemma libcall_run (f : OS → Z * OS) (ev : Z → event) p :
  libcall f ev p =
    Some ((f (os p)).1,
          Process (fake_log p) (f (os p)).2 (calls p ++ [ev (f (os p)).1])).
Proof. unfold libcall. by destruct (f (os p)). Qed.

Lemma fopen64_match_run pathname flags p :
  endswith pathname PATH_ENDING = 1 →
  fopen64 pathname flags p =
    Some ((glibc_fopen64 dev_null flags (os p)).1,
          Process (glibc_fopen64 dev_null flags (os p)).1
                  (glibc_fopen64 dev_null flags (os p)).2
                  (calls p ++ [Ev_fopen64 Site_discard dev_null flags
                                 (glibc_fopen64 dev_null flags (os p)).1])).
Proof.
  intros Hm. unfold fopen64. rewrite decide_True by done.
  unfold mbind, M_bind. by rewrite libcall_run.
Qed.

Lemma fopen64_no_match_run pathname flags p :
  endswith pathname PATH_ENDING ≠ 1 →
  fopen64 pathname flags p =
    Some ((glibc_fopen64 pathname flags (os p)).1,
          Process (fake_log p)
                  (glibc_fopen64 pathname flags (os p)).2
                  (calls p ++ [Ev_fopen64 Site_passthrough pathname flags
                                 (glibc_fopen64 pathname flags (os p)).1])).
Proof.
  intros Hm. unfold fopen64. rewrite decide_False by done.
  by rewrite libcall_run.
Qed.

Lemma truncate_match_run pathname length p :
  endswith pathname PATH_ENDING = 1 → truncate pathname length p = Some (0, p).
Proof. intros Hm. unfold truncate. by rewrite decide_True. Qed.

Lemma truncate_no_match_run pathname length p :
  endswith pathname PATH_ENDING ≠ 1 →
  truncate pathname length p =
    Some ((glibc_truncate pathname (to_int length) (os p)).1,
          Process (fake_log p)
                  (glibc_truncate pathname (to_int length) (os p)).2
                  (calls p ++ [Ev_truncate pathname (to_int length)
                     (glibc_truncate pathname (to_int length) (os p)).1])).
Proof.
  intros Hm. unfold truncate. rewrite decide_False by done.
  by rewrite libcall_run.
Qed.

(** The test of [fwrite], case by case. *)
Lemma is_fake_log_run stream p :
  is_fake_log stream p =
    if decide (fake_log p ≠ NULL) then
      match FILE_fileno stream (os p), FILE_fileno (fake_log p) (os p) with
      | Some a, Some b => Some (bool_decide (a = b), p)
      | _, _ => None
      end
    else Some (false, p).
Proof.
  unfold is_fake_log, mbind, M_bind, get_fake_log, deref_fileno.
  case_decide; [|done].
  destruct (FILE_fileno stream (os p)); [|done].
  by destruct (FILE_fileno (fake_log p) (os p)).
Qed.

Lemma is_fake_log_true stream p :
  is_fake_log stream p = Some (true, p) ↔
  fake_log p ≠ NULL ∧
  ∃ d, FILE_fileno stream (os p) = Some d ∧
       FILE_fileno (fake_log p) (os p) = Some d.
Proof.
  rewrite is_fake_log_run. case_decide as Hn.
  - destruct (FILE_fileno stream (os p)) as [a|],
             (FILE_fileno (fake_log p) (os p)) as [b|];
      try (split; [done | by intros (_ & ? & ? & ?)]).
    split.
    + intros [= Hab%bool_decide_eq_true]. subst b. eauto.
    + intros (_ & d & [= ->] & [= ->]). by rewrite bool_decide_eq_true_2.
  - split; [done|]. by intros [? _].
Qed.

Lemma is_fake_log_null stream p :
  fake_log p = NULL → is_fake_log stream p = Some (false, p).
Proof. intros Hn. rewrite is_fake_log_run. by rewrite decide_False by auto. Qed.

(** The redirect branch of [fwrite]. *)
Lemma fwrite_sink_run (s : list byte) size nmemb stream p :
  is_fake_log stream p = Some (true, p) →
  fwrite (Some s) size nmemb stream p =
    Some (to_size_t (size * nmemb),
          Process (fake_log p)
            (stdout_fflush (stdout_fprintf_s (c_str s) (os p)).2).2
            (calls p ++
               [Ev_fprintf_stdout (c_str s)
                  (stdout_fprintf_s (c_str s) (os p)).1;
                Ev_fflush_stdout
                  (stdout_fflush (stdout_fprintf_s (c_str s) (os p)).2).1])).
Proof.
  intros Hs. unfold fwrite, mbind, M_bind. rewrite Hs.
  unfold fprintf_stdout_s. rewrite !libcall_run. cbn.
  by rewrite <- app_assoc.
Qed.

(** The delegating branch of [fwrite]. *)
Lemma fwrite_pass_run ptr size nmemb stream p :
  is_fake_log stream p = Some (false, p) →
  fwrite ptr size nmemb stream p =
    Some (to_size_t (glibc_fwrite ptr size nmemb stream (os p)).1,
          Process (fake_log p)
            (glibc_fwrite ptr size nmemb stream (os p)).2
            (calls p ++ [Ev_fwrite ptr size nmemb stream
                           (glibc_fwrite ptr size nmemb stream (os p)).1])).
Proof.
  intros Hs. unfold fwrite, mbind, M_bind. rewrite Hs.
  by rewrite libcall_run.
Qed.

Lemma is_fake_log_cases stream p :
  is_fake_log stream p = None ∨
  is_fake_log stream p = Some (true, p) ∨
  is_fake_log stream p = Some (false, p).
Proof.
  rewrite is_fake_log_run. case_decide; [|auto].
  destruct (FILE_fileno stream (os p)); [|auto].
  destruct (FILE_fileno (fake_log p) (os p)); [|auto].
  case_bool_decide; auto.
Qed.

Lemma fwrite_null_ptr_sink size nmemb stream p :
  is_fake_log stream p = Some (true, p) →
  fwrite None size nmemb stream p = None.
Proof. intros Hs. unfold fwrite, mbind, M_bind. by rewrite Hs. Qed.

Lemma fwrite_undefined ptr size nmemb stream p :
  is_fake_log stream p = None → fwrite ptr size nmemb stream p = None.
Proof. intros Hs. unfold fwrite, mbind, M_bind. by rewrite Hs. Qed.

Lemma last_discard_other cs evs :
  Forall other_site evs → last_discard (cs ++ evs) = last_discard cs.
Proof.
  intros Hall. unfold last_discard. rewrite foldl_app. generalize (foldl
    (λ acc ev, match ev with
               | Ev_fopen64 Site_discard _ _ r => r
               | _ => acc
               end) NULL cs).
  induction Hall as [|ev evs Hev _ IH]; intros acc; [done|].
  simpl. rewrite IH. destruct ev as [[] path flags r| | | |]; try done.
  by destruct (Hev path flags r).
Qed.

Lemma last_discard_snoc cs path flags r :
  last_discard (cs ++ [Ev_fopen64 Site_discard path flags r]) = r.
Proof. unfold last_discard. by rewrite foldl_app. Qed.

Lemma last_discard_elem cs :
  last_discard cs ≠ NULL →
  ∃ path flags, Ev_fopen64 Site_discard path flags (last_discard cs) ∈ cs.
Proof.
  induction cs as [|ev cs IH] using rev_ind; [done|].
  destruct ev as [[] path flags r| | | |];
    try (rewrite last_discard_other by (by repeat constructor);
         intros (path' & flags' & Hin)%IH; exists path', flags'; set_solver).
  rewrite last_discard_snoc. intros _. exists path, flags. set_solver.
Qed.

(** What a hooked call does to [fake_log] and to the log of library calls:
    the log grows, and [fake_log] changes in an open of a matching path
    only, where it becomes the stream just opened on ["/dev/null"] at the
    discard site; no other call reaches that site. *)
#[local] Ltac log_grows_elsewhere :=
  intros [= <- <-]; simpl; eexists; split; [done|]; left; split; [done|];
  by repeat constructor.

Lemma exec_inv c p r p' :
  exec c p = Some (r, p') →
  ∃ evs,
    calls p' = calls p ++ evs ∧
    ((fake_log p' = fake_log p ∧ Forall other_site evs) ∨
     ∃ pathname flags,
       c = Call_fopen64 pathname flags ∧
       endswith pathname PATH_ENDING = 1 ∧
       fake_log p' = r ∧
       evs = [Ev_fopen64 Site_discard dev_null flags r]).
Proof.
  destruct c as [pathname flags|ptr size nmemb stream|pathname length]; simpl.
  - destruct (decide (endswith pathname PATH_ENDING = 1)) as [Hm|Hm].
    + rewrite fopen64_match_run by done. intros [= <- <-]. simpl.
      eexists. split; [done|]. right. by exists pathname, flags.
    + rewrite fopen64_no_match_run by done. intros [= <- <-]. simpl.
      eexists. split; [done|]. left. split; [done|].
      by repeat constructor.
  - destruct (is_fake_log_cases stream p) as [Hs|[Hs|Hs]].
    + by rewrite fwrite_undefined.
    + destruct ptr as [s|]; [|by rewrite fwrite_null_ptr_sink].
      rewrite fwrite_sink_run by done. intros [= <- <-]. simpl.
      eexists. split; [done|]. left. split; [done|].
      by repeat constructor.
    + rewrite fwrite_pass_run by done. intros [= <- <-]. simpl.
      eexists. split; [done|]. left. split; [done|].
      by repeat constructor.
  - destruct (decide (endswith pathname PATH_ENDING = 1)) as [Hm|Hm].
    + rewrite truncate_match_run by done. intros [= <- <-].
      exists []. rewrite app_nil_r. split; [done|]. left. by split.
    + rewrite truncate_no_match_run by done. intros [= <- <-]. simpl.
      eexists. split; [done|]. left. split; [done|].
      by repeat constructor.
Qed.

Lemma step_preserves_fake_log_from_discard p a p' :
  fake_log_from_discard p → step p a p' → fake_log_from_discard p'.
Proof.
  intros [Hlast Hdev] Hstep.
  destruct Hstep as [c p r p' Hex|p o]; [|done].
  destruct (exec_inv _ _ _ _ Hex) as (evs & Hevs & [[Hfl Hother]|Hopen]).
  - split.
    + by rewrite Hfl, Hevs, last_discard_other.
    + intros path flags r'. rewrite Hevs, elem_of_app.
      intros [Hin|Hin]; [by eapply Hdev|].
      rewrite Forall_forall in Hother. by destruct (Hother _ Hin path flags r').
  - destruct Hopen as (pathname & flags & _ & _ & Hr & ->). split.
    + by rewrite Hr, Hevs, last_discard_snoc.
    + intros path flags' r'. rewrite Hevs, elem_of_app.
      intros [Hin|Hin]; [by eapply Hdev|].
      apply list_elem_of_singleton in Hin. congruence.
Qed.

Lemma step_keeps_null p a p' :
  fake_log p = NULL → step p a p' → ¬ successful_matching_open a →
  fake_log p' = NULL.
Proof.
  intros Hnull Hstep Hquiet. destruct Hstep as [c p r p' Hex|p o]; [|done].
  destruct (exec_inv _ _ _ _ Hex) as (evs & _ & [[Hfl _]|Hopen]);
    [congruence|].
  destruct Hopen as (pathname & flags & -> & Hm & Hr' & _).
  rewrite Hr'. destruct (decide (r = NULL)) as [|Hr]; [done|].
  destruct Hquiet. by exists pathname, flags, r.
Qed.

Lemma steps_keep_null p acts p' :
  steps p acts p' → fake_log p = NULL →
  Forall (λ a, ¬ successful_matching_open a) acts → fake_log p' = NULL.
Proof.
  induction 1 as [|p a p' acts p'' Hstep _ IH]; [done|].
  intros Hnull [Ha Hacts]%Forall_cons. eauto using step_keeps_null.
Qed.

(** A path with the configured ending is not ["/dev/null"]. *)
Lemma endswith_same_string h h' n :
  c_str h = c_str h' → endswith (Some h) (Some n) = endswith (Some h') (Some n).
Proof.
  intros Heq. rewrite !endswith_present.
  by rewrite <- !(strlen_c_str h), <- !(strlen_c_str h'), Heq.
Qed.

Lemma match_not_dev_null (s d : list byte) :
  endswith (Some s) PATH_ENDING = 1 → dev_null = Some d → c_str s ≠ c_str d.
Proof.
  intros Hm [= <-] Heq. unfold PATH_ENDING in Hm.
  rewrite (endswith_same_string _ _ _ Heq) in Hm. vm_compute in Hm. lia.
Qed.

(** C2.  An open of a path with the configured ending opens ["/dev/null"]
    with the caller's mode and nothing else, stores the stream obtained in
    [fake_log], whatever [fake_log] held, and returns it; the path opened is
    not the path requested. *)
Theorem fopen64_match pathname flags p :
  endswith pathname PATH_ENDING = 1 →
  ∃ h o,
    glibc_fopen64 dev_null flags (os p) = (h, o) ∧
    fopen64 pathname flags p =
      Some (h, Process h o
                 (calls p ++ [Ev_fopen64 Site_discard dev_null flags h])) ∧
    ∀ s d, pathname = Some s → dev_null = Some d → c_str s ≠ c_str d.
Proof.
  intros Hm. rewrite fopen64_match_run by done.
  destruct (glibc_fopen64 dev_null flags (os p)) as [h o] eqn:Ho.
  exists h, o. repeat split. intros s d -> Hd.
  by apply match_not_dev_null.
Qed.

(** C7.  An open of a path without the configured ending (no match, or a
    null path) calls the genuine [fopen64] with the caller's arguments,
    returns its result as it is, null included, and leaves [fake_log] as it
    was; and a hooked call that changes [fake_log] is an open of a path
    with the configured ending. *)
Theorem fopen64_no_match :
  (∀ pathname flags p,
     endswith pathname PATH_ENDING ≠ 1 →
     ∃ h o,
       glibc_fopen64 pathname flags (os p) = (h, o) ∧
       fopen64 pathname flags p =
         Some (h, Process (fake_log p) o
                    (calls p ++
                       [Ev_fopen64 Site_passthrough pathname flags h]))) ∧
  (∀ c p r p',
     exec c p = Some (r, p') → fake_log p' ≠ fake_log p →
     ∃ pathname flags,
       c = Call_fopen64 pathname flags ∧ endswith pathname PATH_ENDING = 1).
Proof.
  split.
  - intros pathname flags p Hm. rewrite fopen64_no_match_run by done.
    destruct (glibc_fopen64 pathname flags (os p)) as [h o]. by exists h, o.
  - intros c p r p' Hex Hne.
    destruct (exec_inv _ _ _ _ Hex) as (evs & _ & [[Hfl _]|Hopen]); [done|].
    destruct Hopen as (pathname & flags & -> & Hm & _). eauto.
Qed.


Lemma steps_preserve_fake_log_from_discard p acts p' :
  steps p acts p' → fake_log_from_discard p → fake_log_from_discard p'.
Proof.
  induction 1 as [|p a p' acts p'' Hstep _ IH]; [done|].
  eauto using step_preserves_fake_log_from_discard.
Qed.

Lemma redirected_not_passed_through ptr size nmemb stream p p' :
  redirected p p' → ¬ passed_through ptr size nmemb stream p p'.
Proof.
  intros (s & r1 & r2 & Hr) (r & Hp). rewrite Hr in Hp.
  by apply app_inv_head in Hp.
Qed.

(** C5.  A write to a valid stream takes the redirect branch exactly when
    [fake_log] is not null and the stream's [_fileno] equals that of
    [fake_log], and delegates otherwise; only the descriptors are compared,
    so that another [FILE] object on the same descriptor counts as
    [fake_log]. *)
Theorem fwrite_sink_iff (s : list byte) size nmemb stream p a :
  FILE_fileno stream (os p) = Some a →
  (fake_log p ≠ NULL → is_Some (FILE_fileno (fake_log p) (os p))) →
  ∃ r p',
    fwrite (Some s) size nmemb stream p = Some (r, p') ∧
    (redirected p p' ↔
       fake_log p ≠ NULL ∧ FILE_fileno (fake_log p) (os p) = Some a) ∧
    (passed_through (Some s) size nmemb stream p p' ↔
       ¬ (fake_log p ≠ NULL ∧ FILE_fileno (fake_log p) (os p) = Some a)).
Proof.
  intros Ha Hvalid.
  destruct (decide (fake_log p ≠ NULL ∧
                    FILE_fileno (fake_log p) (os p) = Some a)) as [Hs|Hs].
  - assert (Ht : is_fake_log stream p = Some (true, p)).
    { apply is_fake_log_true. destruct Hs. eauto. }
    rewrite (fwrite_sink_run _ _ _ _ _ Ht). do 2 eexists. split; [done|].
    assert (Hr : redirected p (Process (fake_log p)
              (stdout_fflush (stdout_fprintf_s (c_str s) (os p)).2).2
              (calls p ++
                 [Ev_fprintf_stdout (c_str s)
                    (stdout_fprintf_s (c_str s) (os p)).1;
                  Ev_fflush_stdout
                    (stdout_fflush (stdout_fprintf_s (c_str s) (os p)).2).1])))
      by (by do 3 eexists).
    split; [done|]. split; [|done].
    intros Hp. by apply redirected_not_passed_through in Hp.
  - assert (Hf : is_fake_log stream p = Some (false, p)).
    { rewrite is_fake_log_run. case_decide as Hn; [|done].
      rewrite Ha. destruct (Hvalid Hn) as [b Hb]. rewrite Hb.
      rewrite bool_decide_eq_false_2; [done|]. intros ->. by apply Hs. }
    rewrite (fwrite_pass_run _ _ _ _ _ Hf). do 2 eexists. split; [done|].
    assert (Hp : passed_through (Some s) size nmemb stream p
              (Process (fake_log p)
                 (glibc_fwrite (Some s) size nmemb stream (os p)).2
                 (calls p ++ [Ev_fwrite (Some s) size nmemb stream
                    (glibc_fwrite (Some s) size nmemb stream (os p)).1])))
      by (by eexists).
    split; [|done]. split; [|done].
    intros Hr. by apply redirected_not_passed_through in Hp.
Qed.

(** C6.  A write that takes the redirect branch returns [size * nmemb], as
    [size_t] computes it (the product itself when it fits 64 bits),
    whatever the bytes written and whatever [fprintf] and [fflush] answer. *)
Theorem fwrite_sink_returns_product (s : list byte) size nmemb stream p d :
  fake_log p ≠ NULL →
  FILE_fileno stream (os p) = Some d →
  FILE_fileno (fake_log p) (os p) = Some d →
  ∃ r p',
    fwrite (Some s) size nmemb stream p = Some (r, p') ∧
    redirected p p' ∧
    r = (size * nmemb) mod 2 ^ 64 ∧
    (0 ≤ size * nmemb < 2 ^ 64 → r = size * nmemb).
Proof.
  intros Hn Ha Hb.
  assert (Ht : is_fake_log stream p = Some (true, p))
    by (apply is_fake_log_true; eauto).
  rewrite (fwrite_sink_run _ _ _ _ _ Ht). do 2 eexists. split; [done|].
  split; [by do 3 eexists|]. split; [done|].
  intros Hrange. unfold to_size_t. by rewrite Z.mod_small.
Qed.

(** C9, amended.  In every state that the process reaches from the loading
    of the library, by hooked calls and by anything else the host does,
    [fake_log] holds the value returned by the latest open made at the
    discard site of [fopen64], null before the first one, and every open made
    there is an open of ["/dev/null"]: a [fake_log] that is not null is a value
    that [glibc_fopen64("/dev/null", _)] returned there, and no hooked call
    stores in it the result of the site that opens the caller's path.  That
    the same value is never also the result of an open of the caller's path
    is not part of it: the library may use a [FILE] address again. *)
Theorem fake_log_opened_on_dev_null p0 acts p :
  loaded p0 → steps p0 acts p →
  fake_log_from_discard p ∧
  (fake_log p ≠ NULL →
   ∃ flags, Ev_fopen64 Site_discard dev_null flags (fake_log p) ∈ calls p).
Proof.
  intros [Hnull Hcalls] Hsteps.
  assert (Hinv : fake_log_from_discard p).
  { eapply steps_preserve_fake_log_from_discard; [done|].
    split; [by rewrite Hnull, Hcalls|]. rewrite Hcalls. set_solver. }
  split; [done|]. destruct Hinv as [Hlast Hdev]. rewrite Hlast.
  intros (path & flags & Hin)%last_discard_elem.
  exists flags. by rewrite <- (Hdev _ _ _ Hin).
Qed.

(** C10.  When the open of ["/dev/null"] fails in an open of a path with
    the configured ending, the null pointer is returned and stored in
    [fake_log]; from then on, as long as no such open yields a stream,
    [fake_log] stays null and every write, to whatever stream, delegates to
    the genuine [fwrite]. *)
Theorem fopen64_discard_failure pathname flags p :
  endswith pathname PATH_ENDING = 1 →
  (glibc_fopen64 dev_null flags (os p)).1 = NULL →
  ∃ p1,
    fopen64 pathname flags p = Some (NULL, p1) ∧
    fake_log p1 = NULL ∧
    ∀ acts p2,
      steps p1 acts p2 →
      Forall (λ a, ¬ successful_matching_open a) acts →
      fake_log p2 = NULL ∧
      ∀ ptr size nmemb stream, ∃ r o,
        glibc_fwrite ptr size nmemb stream (os p2) = (r, o) ∧
        fwrite ptr size nmemb stream p2 =
          Some (to_size_t r,
                Process NULL o
                  (calls p2 ++ [Ev_fwrite ptr size nmemb stream r])).
Proof.
  intros Hm Hfail. rewrite fopen64_match_run by done. rewrite Hfail.
  eexists. split; [done|]. split; [done|].
  intros acts p2 Hsteps Hquiet.
  assert (Hnull : fake_log p2 = NULL)
    by (eapply steps_keep_null; [done| |done]; done).
  split; [done|]. intros ptr size nmemb stream.
  rewrite (fwrite_pass_run _ _ _ _ _ (is_fake_log_null stream p2 Hnull)).
  rewrite Hnull.
  destruct (glibc_fwrite ptr size nmemb stream (os p2)) as [r o].
  by exists r, o.
Qed.

(** When the string at [ptr] is exactly the [size * nmemb] bytes to write,
    the redirect branch prints those bytes. *)
Lemma fwrite_sink_whole_buffer (s : list byte) size nmemb stream p :
  is_fake_log stream p = Some (true, p) →
  strlen s = Z.to_nat (size * nmemb) →
  ∃ r p' r1 r2,
    fwrite (Some s) size nmemb stream p = Some (r, p') ∧
    calls p' = calls p ++
      [Ev_fprintf_stdout (take (Z.to_nat (size * nmemb)) s) r1;
       Ev_fflush_stdout r2].
Proof.
  intros Ht Hlen. rewrite (fwrite_sink_run _ _ _ _ _ Ht).
  do 4 eexists. split; [done|]. simpl. unfold c_str. by rewrite Hlen.
Qed.

End shim_facts.

(** ** The shim on the small library *)

Lemma sim_open_flashlog :
  fopen64 Sim.flashlog (Some (Sim.bytes "w")) Sim.start =
    Some (4864, Sim.opened).
Proof. reflexivity. Qed.

(** The scenario of the description: the log line reaches [stdout], the
    write reports 6, and no file is written. *)
Example sim_hello :
  ∃ p, fwrite (Some (Sim.bytes "hello" ++ [x0a])) 1 6 4864 Sim.opened = Some (6, p) ∧
       Sim.stdout_out (os p) = Sim.bytes "hello" ++ [x0a] ∧
       Sim.written (os p) = [].
Proof. eexists. repeat split. Qed.

(** C1 fails on the code.  The stream of the log is open and
    [fwrite("ab\0cd", 1, 5, stream)] is called: nothing is passed to the
    genuine [fwrite] and [stdout] is flushed, the call returns 5, but only
    the two bytes before the zero byte reach [stdout], not the five bytes that
    the call describes. *)
Theorem fwrite_sink_stops_at_zero_byte :
  ∃ p,
    fwrite (Some Sim.ab0cd) 1 5 4864 Sim.opened = Some (5, p) ∧
    redirected Sim.opened p ∧
    Sim.stdout_out (os p) = Sim.bytes "ab" ∧
    length (take (Z.to_nat (1 * 5)) Sim.ab0cd) = 5%nat ∧
    Sim.stdout_out (os p) ≠ take (Z.to_nat (1 * 5)) Sim.ab0cd.
Proof.
  eexists. split; [reflexivity|]. split; [by do 3 eexists|].
  split; [reflexivity|]. split; [reflexivity|]. discriminate.
Qed.

(** The other way round: a write of the first five bytes of
    ["hello world"] prints all eleven. *)
Example fwrite_sink_reads_past_the_count :
  ∃ p,
    fwrite (Some (Sim.bytes "hello world")) 1 5 4864 Sim.opened = Some (5, p) ∧
    Sim.stdout_out (os p) = Sim.bytes "hello world".
Proof. eexists. split; reflexivity. Qed.

Lemma fopen64_match_witness :
  endswith Sim.flashlog PATH_ENDING = 1 ∧
  ∃ h o,
    glibc_fopen64 dev_null (Some (Sim.bytes "w")) (os Sim.start) = (h, o) ∧
    fopen64 Sim.flashlog (Some (Sim.bytes "w")) Sim.start =
      Some (h, Process h o
                 (calls Sim.start ++
                    [Ev_fopen64 Site_discard dev_null (Some (Sim.bytes "w")) h])) ∧
    ∀ s d, Sim.flashlog = Some s → dev_null = Some d → c_str s ≠ c_str d.
Proof.
  split; [reflexivity|].
  apply (fopen64_match Sim.flashlog (Some (Sim.bytes "w")) Sim.start).
  reflexivity.
Defined.

Lemma fopen64_no_match_witness :
  endswith (Some (Sim.bytes "/tmp/other.txt")) PATH_ENDING ≠ 1 ∧
  (∃ h o,
     glibc_fopen64 (Some (Sim.bytes "/tmp/other.txt")) (Some (Sim.bytes "r"))
       (os Sim.opened) = (h, o) ∧
     fopen64 (Some (Sim.bytes "/tmp/other.txt")) (Some (Sim.bytes "r"))
       Sim.opened =
       Some (h, Process (fake_log Sim.opened) o
                  (calls Sim.opened ++
                     [Ev_fopen64 Site_passthrough
                        (Some (Sim.bytes "/tmp/other.txt"))
                        (Some (Sim.bytes "r")) h]))) ∧
  exec (Call_fopen64 Sim.flashlog (Some (Sim.bytes "w"))) Sim.start =
    Some (4864, Sim.opened) ∧
  fake_log Sim.opened ≠ fake_log Sim.start ∧
  ∃ pathname flags,
    Call_fopen64 Sim.flashlog (Some (Sim.bytes "w")) =
      Call_fopen64 pathname flags ∧
    endswith pathname PATH_ENDING = 1.
Proof.
  assert (Hne : endswith (Some (Sim.bytes "/tmp/other.txt")) PATH_ENDING ≠ 1)
    by (vm_compute; discriminate).
  split; [exact Hne|]. split.
  - exact (proj1 fopen64_no_match (Some (Sim.bytes "/tmp/other.txt"))
             (Some (Sim.bytes "r")) Sim.opened Hne).
  - split; [reflexivity|]. split; [vm_compute; discriminate|].
    apply (proj2 fopen64_no_match
             (Call_fopen64 Sim.flashlog (Some (Sim.bytes "w")))
             Sim.start 4864 Sim.opened); [reflexivity|].
    vm_compute; discriminate.
Defined.


(** The stream at 8192 is not [fake_log] but wraps its descriptor: the write
    is redirected.  The stream at 5120 wraps another one: it is not. *)
Lemma fwrite_sink_iff_witness :
  FILE_fileno 8192 (os Sim.aliased) = Some 3 ∧
  8192 ≠ fake_log Sim.aliased ∧
  ∃ r p',
    fwrite (Some (Sim.bytes "log")) 1 3 8192 Sim.aliased = Some (r, p') ∧
    (redirected Sim.aliased p' ↔
       fake_log Sim.aliased ≠ NULL ∧
       FILE_fileno (fake_log Sim.aliased) (os Sim.aliased) = Some 3) ∧
    (passed_through (Some (Sim.bytes "log")) 1 3 8192 Sim.aliased p' ↔
       ¬ (fake_log Sim.aliased ≠ NULL ∧
          FILE_fileno (fake_log Sim.aliased) (os Sim.aliased) = Some 3)).
Proof.
  split; [reflexivity|]. split; [vm_compute; discriminate|].
  apply (fwrite_sink_iff (Sim.bytes "log") 1 3 8192 Sim.aliased 3);
    [reflexivity|].
  intros _. exists 3. reflexivity.
Defined.

Example sim_other_descriptor :
  ∃ p, fwrite (Some (Sim.bytes "log")) 1 3 5120 Sim.aliased = Some (3, p) ∧
       passed_through (Some (Sim.bytes "log")) 1 3 5120 Sim.aliased p ∧
       Sim.written (os p) = [(4, Sim.bytes "log")] ∧
       Sim.stdout_out (os p) = [].
Proof. eexists. split; [reflexivity|]. split; [by eexists|]. by split. Qed.

(** Descriptor 1 is closed and [fflush] answers -1: the write still
    returns 5. *)
Lemma fwrite_sink_returns_product_witness :
  fake_log Sim.opened_no_stdout ≠ NULL ∧
  FILE_fileno 4864 (os Sim.opened_no_stdout) = Some 3 ∧
  FILE_fileno (fake_log Sim.opened_no_stdout) (os Sim.opened_no_stdout) = Some 3 ∧
  ∃ r p',
    fwrite (Some Sim.ab0cd) 1 5 4864 Sim.opened_no_stdout = Some (r, p') ∧
    redirected Sim.opened_no_stdout p' ∧
    r = (1 * 5) mod 2 ^ 64 ∧
    (0 ≤ 1 * 5 < 2 ^ 64 → r = 1 * 5).
Proof.
  assert (Hn : fake_log Sim.opened_no_stdout ≠ NULL)
    by (vm_compute; discriminate).
  split; [exact Hn|]. split; [reflexivity|]. split; [reflexivity|].
  exact (fwrite_sink_returns_product Sim.ab0cd 1 5 4864 Sim.opened_no_stdout 3
           Hn eq_refl eq_refl).
Defined.

Example sim_flush_fails :
  ∃ p, fwrite (Some Sim.ab0cd) 1 5 4864 Sim.opened_no_stdout = Some (5, p) ∧
       calls p = calls Sim.opened_no_stdout ++
                   [Ev_fprintf_stdout (Sim.bytes "ab") 2; Ev_fflush_stdout (-1)] ∧
       Sim.stdout_out (os p) = [].
Proof. eexists. repeat split. Qed.

Lemma fake_log_opened_on_dev_null_witness :
  loaded Sim.start ∧
  steps Sim.start
    [Hooked (Call_fopen64 Sim.flashlog (Some (Sim.bytes "w"))) 4864]
    Sim.opened ∧
  fake_log_from_discard Sim.opened ∧
  (fake_log Sim.opened ≠ NULL →
   ∃ flags,
     Ev_fopen64 Site_discard dev_null flags (fake_log Sim.opened)
       ∈ calls Sim.opened).
Proof.
  assert (Hl : loaded Sim.start) by (split; reflexivity).
  assert (Hs : steps Sim.start
                 [Hooked (Call_fopen64 Sim.flashlog (Some (Sim.bytes "w"))) 4864]
                 Sim.opened).
  { eapply steps_cons; [|apply steps_nil]. apply step_hooked. reflexivity. }
  split; [exact Hl|]. split; [exact Hs|].
  exact (fake_log_opened_on_dev_null Sim.start _ Sim.opened Hl Hs).
Defined.

(** C9, as stated, fails.  The shim does not follow the life of the stream
    in [fake_log]: after the host has closed the log stream, the library may
    hand the same [FILE] address to an open of the caller's path.  At the end
    of [Sim.reuse_run], a run from the loading of the library, [fake_log] is
    not null and is the handle that the pass-through open of
    ["/tmp/other.txt"] produced. *)
Lemma fake_log_may_be_passthrough_handle :
  ¬ (∀ (p0 : process Sim.state) acts p,
       loaded p0 → steps p0 acts p → fake_log p ≠ NULL →
       (∃ flags,
          Ev_fopen64 Site_discard dev_null flags (fake_log p) ∈ calls p) ∧
       ¬ (∃ path flags,
            Ev_fopen64 Site_passthrough path flags (fake_log p) ∈ calls p)).
Proof.
  intros Hclaim.
  assert (Hl : loaded Sim.start) by (split; reflexivity).
  assert (Hs : steps Sim.start Sim.reuse_run Sim.reopened).
  { eapply steps_cons; [apply step_hooked; reflexivity|].
    eapply steps_cons; [exact (step_other Sim.opened Sim.boot)|].
    eapply steps_cons; [apply step_hooked; reflexivity|apply steps_nil]. }
  assert (Hn : fake_log Sim.reopened ≠ NULL) by (vm_compute; discriminate).
  destruct (Hclaim Sim.start Sim.reuse_run Sim.reopened Hl Hs Hn) as [_ Hnot].
  apply Hnot. exists Sim.other_txt, (Some (Sim.bytes "w")).
  apply list_elem_of_In. simpl. auto.
Qed.

(** There, a write to the stream of ["/tmp/other.txt"] is printed to [stdout]
    and the file receives nothing. *)
Example sim_reused_handle_redirected :
  ∃ p, fwrite (Some (Sim.bytes "data")) 1 4 4864 Sim.reopened = Some (4, p) ∧
       redirected Sim.reopened p ∧
       Sim.stdout_out (os p) = Sim.bytes "data" ∧
       Sim.written (os p) = [].
Proof. eexists. split; [reflexivity|]. split; [by do 3 eexists|]. by split. Qed.

(** The mode ["x"] is not one that [fopen64] accepts: the open of
    ["/dev/null"] fails and [fake_log], which held a stream, is null again. *)
Lemma fopen64_discard_failure_witness :
  endswith Sim.flashlog PATH_ENDING = 1 ∧
  (glibc_fopen64 dev_null (Some (Sim.bytes "x")) (os Sim.opened)).1 = NULL ∧
  fake_log Sim.opened ≠ NULL ∧
  ∃ p1,
    fopen64 Sim.flashlog (Some (Sim.bytes "x")) Sim.opened = Some (NULL, p1) ∧
    fake_log p1 = NULL ∧
    ∀ acts p2,
      steps p1 acts p2 →
      Forall (λ a, ¬ successful_matching_open a) acts →
      fake_log p2 = NULL ∧
      ∀ ptr size nmemb stream, ∃ r o,
        glibc_fwrite ptr size nmemb stream (os p2) = (r, o) ∧
        fwrite ptr size nmemb stream p2 =
          Some (to_size_t r,
                Process NULL o
                  (calls p2 ++ [Ev_fwrite ptr size nmemb stream r])).
Proof.
  split; [reflexivity|]. split; [reflexivity|].
  split; [vm_compute; discriminate|].
  apply (fopen64_discard_failure Sim.flashlog (Some (Sim.bytes "x")) Sim.opened);
    reflexivity.
Defined.


(** ** More on the path matcher *)

Section matcher.

Implicit Types s h n k : list byte.

Lemma endswith_1_suffix h n :
  endswith (Some h) (Some n) = 1 ↔ c_str n `suffix_of` c_str h.
Proof.
  rewrite endswith_match_iff, <- !strlen_c_str. apply drop_eq_suffix.
Qed.

Lemma strlen_app_nonzero k s :
  Forall (λ c, c ≠ x00) k → strlen (k ++ s) = (length k + strlen s)%nat.
Proof.
  induction 1 as [|c k Hc _ IH]; [done|]. simpl.
  rewrite decide_False by done. by rewrite IH.
Qed.

Lemma c_str_app_nonzero k s :
  Forall (λ c, c ≠ x00) k → c_str (k ++ s) = k ++ c_str s.
Proof.
  intros Hk. unfold c_str. rewrite strlen_app_nonzero by done.
  by rewrite take_app_add.
Qed.

Lemma strlen_full_nonzero s :
  strlen s = length s → Forall (λ c, c ≠ x00) s.
Proof.
  induction s as [|c s IH]; simpl; [done|].
  case_decide; [done|]. intros [= ?]. constructor; auto.
Qed.

Lemma c_str_nil_iff s : c_str s = [] ↔ strlen s = O.
Proof.
  rewrite <- strlen_c_str. split; [by intros ->|]. apply nil_length_inv.
Qed.

(** [endswith] yields 1 exactly when the haystack string is some bytes
    followed by the needle string, and 0 exactly when it is not. *)
Theorem endswith_decomposition h n :
  (endswith (Some h) (Some n) = 1 ↔ ∃ k, c_str h = k ++ c_str n) ∧
  (endswith (Some h) (Some n) = 0 ↔ ¬ ∃ k, c_str h = k ++ c_str n).
Proof.
  split; [apply endswith_1_suffix|].
  rewrite <- (endswith_1_suffix h n : _ ↔ ∃ k, _).
  rewrite endswith_present. case_decide; split; (done || lia).
Qed.

(** An empty needle string ends every haystack; an empty haystack string is
    ended by the empty needle string only. *)
Theorem endswith_empty h n :
  (strlen n = O → endswith (Some h) (Some n) = 1) ∧
  (strlen h = O → (endswith (Some h) (Some n) = 1 ↔ strlen n = O)).
Proof.
  split.
  - intros Hn%c_str_nil_iff. apply endswith_1_suffix. rewrite Hn.
    apply suffix_nil.
  - intros Hh%c_str_nil_iff. rewrite endswith_1_suffix, Hh, <- c_str_nil_iff.
    split; [apply suffix_nil_inv|]. by intros ->.
Qed.

(** On present strings "ends with" is an order: every string ends itself,
    the relation is transitive, and two strings that end each other are the
    same string. *)
Theorem endswith_order :
  (∀ s, endswith (Some s) (Some s) = 1) ∧
  (∀ a b c,
     endswith (Some a) (Some b) = 1 → endswith (Some b) (Some c) = 1 →
     endswith (Some a) (Some c) = 1) ∧
  (∀ a b,
     endswith (Some a) (Some b) = 1 → endswith (Some b) (Some a) = 1 →
     c_str a = c_str b).
Proof.
  split; [|split].
  - intros s. by apply endswith_1_suffix.
  - intros a b c Hab%endswith_1_suffix Hbc%endswith_1_suffix.
    apply endswith_1_suffix. by etrans.
  - intros a b Hab%endswith_1_suffix Hba%endswith_1_suffix.
    by apply (anti_symm suffix).
Qed.

(** Only the two strings count: whatever follows the first zero byte of the
    haystack or of the needle does not change the result. *)
Theorem endswith_strings_only h h' n n' :
  c_str h = c_str h' → c_str n = c_str n' →
  endswith (Some h) (Some n) = endswith (Some h') (Some n').
Proof.
  intros Hh Hn. rewrite !endswith_present.
  by rewrite <- (strlen_c_str h), <- (strlen_c_str h'),
    <- (strlen_c_str n), <- (strlen_c_str n'), Hh, Hn.
Qed.

(** A path shorter than the 42 bytes of [PATH_ENDING] never matches it. *)
Theorem short_path_no_match s :
  (strlen s < 42)%nat → endswith (Some s) PATH_ENDING = 0.
Proof.
  intros Hs. unfold PATH_ENDING. rewrite endswith_present.
  rewrite decide_False; [done|]. intros [Hle _].
  vm_compute (strlen (list_byte_of_string _)) in Hle. lia.
Qed.

End matcher.

(** ** More on the hooked functions *)

Section shim_more.

Context {OS : Type} `{!Glibc OS}.

Implicit Types (p : process OS) (pathname flags ptr : cptr).

Lemma is_fake_log_other stream p a b :
  FILE_fileno stream (os p) = Some a →
  FILE_fileno (fake_log p) (os p) = Some b →
  a ≠ b →
  is_fake_log stream p = Some (false, p).
Proof.
  intros Ha Hb Hab. rewrite is_fake_log_run, Ha, Hb.
  rewrite bool_decide_eq_false_2 by done. by case_decide.
Qed.

(** No test of a path component: whatever bytes, none of them zero, come
    before the configured ending, and whatever follows the terminator, the
    open is an open of ["/dev/null"] that sets [fake_log]. *)
Theorem fopen64_any_prefix (k e junk : list byte) flags p :
  PATH_ENDING = Some e →
  Forall (λ c, c ≠ x00) k →
  endswith (Some (k ++ e ++ x00 :: junk)) PATH_ENDING = 1 ∧
  ∃ h o,
    glibc_fopen64 dev_null flags (os p) = (h, o) ∧
    fopen64 (Some (k ++ e ++ x00 :: junk)) flags p =
      Some (h, Process h o
                 (calls p ++ [Ev_fopen64 Site_discard dev_null flags h])).
Proof.
  intros He Hk.
  assert (Hm : endswith (Some (k ++ e ++ x00 :: junk)) PATH_ENDING = 1).
  { rewrite He. apply endswith_1_suffix. rewrite c_str_app_nonzero by done.
    apply suffix_app_r. injection He as <-.
    rewrite c_str_app_nonzero by (by apply strlen_full_nonzero).
    replace (c_str (x00 :: junk)) with (@nil byte) by done.
    rewrite app_nil_r. by vm_compute (c_str (list_byte_of_string _)). }
  split; [done|]. rewrite fopen64_match_run by done.
  destruct (glibc_fopen64 dev_null flags (os p)) as [h o]. by exists h, o.
Qed.

(** A write that is not a write to the sink ([fake_log] is null, or the two
    descriptors differ) is one call of the genuine [fwrite] with the four
    arguments of the caller; nothing is printed, [fake_log] is kept, and the
    result, an [int] by the type of the pointer, comes back as a [size_t]:
    unchanged when it is not negative. *)
Theorem fwrite_elsewhere ptr size nmemb stream p :
  (fake_log p = NULL ∨
   ∃ a b, FILE_fileno stream (os p) = Some a ∧
          FILE_fileno (fake_log p) (os p) = Some b ∧ a ≠ b) →
  ∃ r o,
    glibc_fwrite ptr size nmemb stream (os p) = (r, o) ∧
    fwrite ptr size nmemb stream p =
      Some (r mod 2 ^ 64,
            Process (fake_log p) o
              (calls p ++ [Ev_fwrite ptr size nmemb stream r])) ∧
    (0 ≤ r < 2 ^ 64 → r mod 2 ^ 64 = r).
Proof.
  intros Hcase.
  assert (Hf : is_fake_log stream p = Some (false, p)).
  { destruct Hcase as [Hn|(a & b & Ha & Hb & Hab)];
      [by apply is_fake_log_null | by eapply is_fake_log_other]. }
  rewrite (fwrite_pass_run _ _ _ _ _ Hf).
  destruct (glibc_fwrite ptr size nmemb stream (os p)) as [r o].
  exists r, o. repeat split; try done. intros ?. by apply Z.mod_small.
Qed.

(** What a write to the sink prints is the string at [ptr], whatever [size]
    and [nmemb] are; for a buffer of [size * nmemb] bytes inside the object
    at [ptr], that is the buffer exactly when the first zero byte comes
    right after it. *)
Theorem fwrite_sink_output (s : list byte) size nmemb stream p d :
  fake_log p ≠ NULL →
  FILE_fileno stream (os p) = Some d →
  FILE_fileno (fake_log p) (os p) = Some d →
  ∃ r p' r1 r2,
    fwrite (Some s) size nmemb stream p = Some (r, p') ∧
    calls p' = calls p ++
      [Ev_fprintf_stdout (c_str s) r1; Ev_fflush_stdout r2] ∧
    Forall (λ c, c ≠ x00) (c_str s) ∧
    ((Z.to_nat (size * nmemb) ≤ length s)%nat →
     c_str s = take (Z.to_nat (size * nmemb)) s ↔
     strlen s = Z.to_nat (size * nmemb)).
Proof.
  intros Hn Ha Hb.
  assert (Ht : is_fake_log stream p = Some (true, p))
    by (apply is_fake_log_true; eauto).
  rewrite (fwrite_sink_run _ _ _ _ _ Ht). do 4 eexists.
  split; [done|]. split; [done|]. split.
  - unfold c_str. clear. induction s as [|c s IH]; simpl; [done|].
    case_decide; simpl; [done|]. by constructor.
  - intros Hle. unfold c_str. split; [|by intros ->].
    intros Heq%(f_equal length). rewrite !length_take in Heq.
    pose proof (strlen_le s). lia.
Qed.

(** Open, then write: when an open of a path with the configured ending
    yields a stream, a write to that stream prints the string at [ptr] to
    [stdout], flushes, returns [size * nmemb] and calls nothing else. *)
Theorem fopen64_then_fwrite pathname flags (s : list byte) size nmemb p h p1 d :
  endswith pathname PATH_ENDING = 1 →
  fopen64 pathname flags p = Some (h, p1) →
  h ≠ NULL →
  FILE_fileno h (os p1) = Some d →
  ∃ p2 r1 r2,
    fwrite (Some s) size nmemb h p1 = Some ((size * nmemb) mod 2 ^ 64, p2) ∧
    fake_log p2 = h ∧
    calls p2 = calls p ++
      [Ev_fopen64 Site_discard dev_null flags h;
       Ev_fprintf_stdout (c_str s) r1; Ev_fflush_stdout r2].
Proof.
  intros Hm Hopen Hh Hd. rewrite fopen64_match_run in Hopen by done.
  injection Hopen as Hh1 Hp1.
  assert (Hfl : fake_log p1 = h) by (by rewrite <- Hp1, <- Hh1).
  assert (Ht : is_fake_log h p1 = Some (true, p1)).
  { apply is_fake_log_true. rewrite Hfl. eauto. }
  rewrite (fwrite_sink_run _ _ _ _ _ Ht). do 3 eexists.
  split; [done|]. split; [done|]. simpl.
  rewrite <- Hp1 at 1. simpl. by rewrite Hh1, <- app_assoc.
Qed.

(** The shim hooks no close: along any run without an open of a path with
    the configured ending, whatever else the host does, [fake_log] keeps its
    value. *)
Theorem fake_log_kept p acts p' :
  steps p acts p' →
  Forall (λ a, ¬ matching_open a) acts →
  fake_log p' = fake_log p.
Proof.
  induction 1 as [|p a p' acts p'' Hstep _ IH]; [done|].
  intros [Ha Hacts]%Forall_cons. rewrite (IH Hacts).
  destruct Hstep as [c p r p' Hex|p o]; [|done].
  destruct (exec_inv _ _ _ _ Hex) as (evs & _ & [[Hfl _]|Hopen]); [done|].
  destruct Hopen as (pathname & flags & -> & Hm & _).
  destruct Ha. by exists pathname, flags, r.
Qed.

(** Two logs open at once: once a second open of a path with the configured
    ending has yielded a stream on another descriptor, a write to the first
    stream is no longer printed; it goes to the genuine [fwrite], that is,
    to ["/dev/null"]. *)
Theorem second_open_takes_over path1 path2 flags1 flags2 ptr size nmemb
    p h1 p1 h2 p2 a b :
  endswith path1 PATH_ENDING = 1 →
  endswith path2 PATH_ENDING = 1 →
  fopen64 path1 flags1 p = Some (h1, p1) →
  fopen64 path2 flags2 p1 = Some (h2, p2) →
  FILE_fileno h1 (os p2) = Some a →
  FILE_fileno h2 (os p2) = Some b →
  a ≠ b →
  fake_log p1 = h1 ∧ fake_log p2 = h2 ∧
  ∃ r o,
    glibc_fwrite ptr size nmemb h1 (os p2) = (r, o) ∧
    fwrite ptr size nmemb h1 p2 =
      Some (r mod 2 ^ 64,
            Process h2 o (calls p2 ++ [Ev_fwrite ptr size nmemb h1 r])).
Proof.
  intros Hm1 Hm2 Ho1 Ho2 Ha Hb Hab.
  rewrite fopen64_match_run in Ho1, Ho2 by done.
  injection Ho1 as Hh1 Hp1. injection Ho2 as Hh2 Hp2.
  assert (Hfl1 : fake_log p1 = h1) by (by rewrite <- Hp1, <- Hh1).
  assert (Hfl2 : fake_log p2 = h2) by (by rewrite <- Hp2, <- Hh2).
  split; [done|]. split; [done|].
  assert (Hf : is_fake_log h1 p2 = Some (false, p2)).
  { eapply is_fake_log_other; [done| |done]. by rewrite Hfl2. }
  rewrite (fwrite_pass_run _ _ _ _ _ Hf), Hfl2.
  destruct (glibc_fwrite ptr size nmemb h1 (os p2)) as [r o]. by exists r, o.
Qed.


Lemma to_int_congruent l l' :
  (l' - l) mod 2 ^ 32 = 0 → to_int l' = to_int l.
Proof.
  intros Hc. unfold to_int. f_equal.
  apply Z.mod_divide in Hc; [|done]. destruct Hc as [q Hq].
  replace (l' + 2 ^ 31) with (l + 2 ^ 31 + q * 2 ^ 32) by lia.
  by rewrite Z.mod_add.
Qed.

(** With [HOOK_TRUNCATE]: the length goes to the genuine [truncate] through
    the [int] parameter of [orig_truncate_func_type], which keeps its low 32
    bits only.  The length passed on agrees with the caller's modulo [2^32];
    it is the caller's length when that is at least 0 and below [2^31]; and
    two lengths that differ by a multiple of [2^32] give the same call and
    the same result. *)
Theorem truncate_length_low_bits pathname length p :
  endswith pathname PATH_ENDING ≠ 1 →
  ∃ l r p',
    truncate pathname length p = Some (r, p') ∧
    calls p' = calls p ++ [Ev_truncate pathname l r] ∧
    (l - length) mod 2 ^ 32 = 0 ∧
    (0 ≤ length < 2 ^ 31 → l = length) ∧
    ∀ length',
      (length' - length) mod 2 ^ 32 = 0 →
      truncate pathname length' p = Some (r, p').
Proof.
  intros Hm. rewrite truncate_no_match_run by done.
  exists (to_int length). do 2 eexists. split; [done|]. split; [done|].
  pose proof (Z.div_mod (length + 2 ^ 31) (2 ^ 32) ltac:(done)) as Hdm.
  split; [|split].
  - unfold to_int.
    replace ((length + 2 ^ 31) mod 2 ^ 32 - 2 ^ 31 - length)
      with (- ((length + 2 ^ 31) / 2 ^ 32) * 2 ^ 32) by lia.
    apply Z.mod_mul. done.
  - intros ?. unfold to_int. rewrite Z.mod_small; lia.
  - intros length' Hc. rewrite truncate_no_match_run by done.
    by rewrite (to_int_congruent _ _ Hc).
Qed.

End shim_more.

(** ** More runs on the small library *)

Lemma endswith_empty_witness :
  strlen (x00 :: Sim.bytes "junk") = O ∧
  endswith (Some (Sim.bytes "abc")) (Some (x00 :: Sim.bytes "junk")) = 1 ∧
  strlen (@nil byte) = O ∧
  (endswith (Some []) (Some (Sim.bytes "a")) = 1 ↔
   strlen (Sim.bytes "a") = O).
Proof.
  split; [reflexivity|]. split.
  - exact (proj1 (endswith_empty (Sim.bytes "abc") (x00 :: Sim.bytes "junk"))
             eq_refl).
  - split; [reflexivity|].
    exact (proj2 (endswith_empty [] (Sim.bytes "a")) eq_refl).
Defined.

Lemma endswith_order_witness :
  endswith (Some (Sim.bytes "a/b/c")) (Some (Sim.bytes "b/c")) = 1 ∧
  endswith (Some (Sim.bytes "b/c")) (Some (Sim.bytes "c")) = 1 ∧
  endswith (Some (Sim.bytes "a/b/c")) (Some (Sim.bytes "c")) = 1.
Proof.
  split; [reflexivity|]. split; [reflexivity|].
  exact (proj1 (proj2 endswith_order) (Sim.bytes "a/b/c") (Sim.bytes "b/c")
           (Sim.bytes "c") eq_refl eq_refl).
Defined.

Lemma endswith_strings_only_witness :
  c_str Sim.ab0cd = c_str (Sim.bytes "ab") ∧
  c_str (Sim.bytes "b") = c_str (Sim.bytes "b" ++ x00 :: Sim.bytes "zz") ∧
  endswith (Some Sim.ab0cd) (Some (Sim.bytes "b")) =
    endswith (Some (Sim.bytes "ab"))
             (Some (Sim.bytes "b" ++ x00 :: Sim.bytes "zz")).
Proof.
  split; [reflexivity|]. split; [reflexivity|].
  exact (endswith_strings_only Sim.ab0cd (Sim.bytes "ab") (Sim.bytes "b")
           (Sim.bytes "b" ++ x00 :: Sim.bytes "zz") eq_refl eq_refl).
Defined.

Lemma short_path_no_match_witness :
  (strlen (Sim.bytes "Logs/flashlog.txt") < 42)%nat ∧
  endswith (Some (Sim.bytes "Logs/flashlog.txt")) PATH_ENDING = 0.
Proof.
  assert (Hs : (strlen (Sim.bytes "Logs/flashlog.txt") < 42)%nat)
    by (vm_compute; lia).
  split; [exact Hs|].
  exact (short_path_no_match (Sim.bytes "Logs/flashlog.txt") Hs).
Defined.

(** ["evil.macromedia/Flash_Player/Logs/flashlog.txt"], in no directory
    [.macromedia], is taken for the log. *)
Lemma fopen64_any_prefix_witness :
  PATH_ENDING =
    Some (Sim.bytes ".macromedia/Flash_Player/Logs/flashlog.txt") ∧
  Forall (λ c, c ≠ x00) (Sim.bytes "evil") ∧
  endswith
    (Some (Sim.bytes "evil" ++
           Sim.bytes ".macromedia/Flash_Player/Logs/flashlog.txt" ++
           x00 :: Sim.bytes "junk")) PATH_ENDING = 1 ∧
  ∃ h o,
    glibc_fopen64 dev_null (Some (Sim.bytes "w")) (os Sim.start) = (h, o) ∧
    fopen64
      (Some (Sim.bytes "evil" ++
             Sim.bytes ".macromedia/Flash_Player/Logs/flashlog.txt" ++
             x00 :: Sim.bytes "junk")) (Some (Sim.bytes "w")) Sim.start =
      Some (h, Process h o
                 (calls Sim.start ++
                    [Ev_fopen64 Site_discard dev_null (Some (Sim.bytes "w")) h])).
Proof.
  assert (Hk : Forall (λ c, c ≠ x00) (Sim.bytes "evil"))
    by (by apply strlen_full_nonzero).
  split; [reflexivity|]. split; [exact Hk|].
  exact (fopen64_any_prefix (Sim.bytes "evil")
           (Sim.bytes ".macromedia/Flash_Player/Logs/flashlog.txt")
           (Sim.bytes "junk") (Some (Sim.bytes "w")) Sim.start eq_refl Hk).
Defined.

Lemma fwrite_elsewhere_witness :
  (∃ a b, FILE_fileno 5120 (os Sim.aliased) = Some a ∧
          FILE_fileno (fake_log Sim.aliased) (os Sim.aliased) = Some b ∧
          a ≠ b) ∧
  ∃ r o,
    glibc_fwrite (Some (Sim.bytes "log")) 1 3 5120 (os Sim.aliased) = (r, o) ∧
    fwrite (Some (Sim.bytes "log")) 1 3 5120 Sim.aliased =
      Some (r mod 2 ^ 64,
            Process (fake_log Sim.aliased) o
              (calls Sim.aliased ++
                 [Ev_fwrite (Some (Sim.bytes "log")) 1 3 5120 r])) ∧
    (0 ≤ r < 2 ^ 64 → r mod 2 ^ 64 = r).
Proof.
  assert (Hd : ∃ a b, FILE_fileno 5120 (os Sim.aliased) = Some a ∧
                      FILE_fileno (fake_log Sim.aliased) (os Sim.aliased) = Some b ∧
                      a ≠ b).
  { exists 4, 3. split; [reflexivity|]. split; [reflexivity|]. discriminate. }
  split; [exact Hd|].
  exact (fwrite_elsewhere (Some (Sim.bytes "log")) 1 3 5120 Sim.aliased
           (or_intror Hd)).
Defined.

Lemma fwrite_sink_output_witness :
  fake_log Sim.opened ≠ NULL ∧
  FILE_fileno 4864 (os Sim.opened) = Some 3 ∧
  FILE_fileno (fake_log Sim.opened) (os Sim.opened) = Some 3 ∧
  ∃ r p' r1 r2,
    fwrite (Some Sim.ab0cd) 1 5 4864 Sim.opened = Some (r, p') ∧
    calls p' = calls Sim.opened ++
      [Ev_fprintf_stdout (c_str Sim.ab0cd) r1; Ev_fflush_stdout r2] ∧
    Forall (λ c, c ≠ x00) (c_str Sim.ab0cd) ∧
    ((Z.to_nat (1 * 5) ≤ length Sim.ab0cd)%nat →
     c_str Sim.ab0cd = take (Z.to_nat (1 * 5)) Sim.ab0cd ↔
     strlen Sim.ab0cd = Z.to_nat (1 * 5)).
Proof.
  assert (Hn : fake_log Sim.opened ≠ NULL) by (vm_compute; discriminate).
  split; [exact Hn|]. split; [reflexivity|]. split; [reflexivity|].
  exact (fwrite_sink_output Sim.ab0cd 1 5 4864 Sim.opened 3 Hn eq_refl eq_refl).
Defined.

Lemma fopen64_then_fwrite_witness :
  endswith Sim.flashlog PATH_ENDING = 1 ∧
  fopen64 Sim.flashlog (Some (Sim.bytes "w")) Sim.start =
    Some (4864, Sim.opened) ∧
  4864 ≠ NULL ∧
  FILE_fileno 4864 (os Sim.opened) = Some 3 ∧
  ∃ p2 r1 r2,
    fwrite (Some (Sim.bytes "hello")) 1 5 4864 Sim.opened =
      Some ((1 * 5) mod 2 ^ 64, p2) ∧
    fake_log p2 = 4864 ∧
    calls p2 = calls Sim.start ++
      [Ev_fopen64 Site_discard dev_null (Some (Sim.bytes "w")) 4864;
       Ev_fprintf_stdout (c_str (Sim.bytes "hello")) r1; Ev_fflush_stdout r2].
Proof.
  assert (Hh : 4864 ≠ NULL) by (vm_compute; discriminate).
  split; [reflexivity|]. split; [reflexivity|]. split; [exact Hh|].
  split; [reflexivity|].
  exact (fopen64_then_fwrite Sim.flashlog (Some (Sim.bytes "w"))
           (Sim.bytes "hello") 1 5 Sim.start 4864 Sim.opened 3
           eq_refl eq_refl Hh eq_refl).
Defined.

(** A truncate of the log, then the host closes the stream: [fake_log] still
    holds its address. *)
Lemma fake_log_kept_witness :
  steps Sim.opened [Hooked (Call_truncate Sim.flashlog 0) 0; Other] Sim.closed ∧
  Forall (λ a, ¬ matching_open a)
    [Hooked (Call_truncate Sim.flashlog 0) 0; Other] ∧
  fake_log Sim.closed = fake_log Sim.opened.
Proof.
  assert (Hs : steps Sim.opened
                 [Hooked (Call_truncate Sim.flashlog 0) 0; Other] Sim.closed).
  { eapply steps_cons; [apply step_hooked; reflexivity|].
    eapply steps_cons; [|apply steps_nil].
    exact (step_other Sim.opened (os Sim.closed)). }
  assert (Hq : Forall (λ a, ¬ matching_open a)
                 [Hooked (Call_truncate Sim.flashlog 0) 0; Other]).
  { repeat constructor; intros (pathname & flags & r & Heq & _);
      discriminate Heq. }
  split; [exact Hs|]. split; [exact Hq|].
  exact (fake_log_kept Sim.opened _ Sim.closed Hs Hq).
Defined.

Lemma second_open_takes_over_witness :
  endswith Sim.flashlog PATH_ENDING = 1 ∧
  fopen64 Sim.flashlog (Some (Sim.bytes "w")) Sim.start =
    Some (4864, Sim.opened) ∧
  fopen64 Sim.flashlog (Some (Sim.bytes "w")) Sim.opened =
    Some (5120, Sim.opened_twice) ∧
  FILE_fileno 4864 (os Sim.opened_twice) = Some 3 ∧
  FILE_fileno 5120 (os Sim.opened_twice) = Some 4 ∧
  3 ≠ 4 ∧
  fake_log Sim.opened = 4864 ∧ fake_log Sim.opened_twice = 5120 ∧
  ∃ r o,
    glibc_fwrite (Some (Sim.bytes "lost")) 1 4 4864 (os Sim.opened_twice) =
      (r, o) ∧
    fwrite (Some (Sim.bytes "lost")) 1 4 4864 Sim.opened_twice =
      Some (r mod 2 ^ 64,
            Process 5120 o
              (calls Sim.opened_twice ++
                 [Ev_fwrite (Some (Sim.bytes "lost")) 1 4 4864 r])).
Proof.
  assert (Hne : 3 ≠ 4) by discriminate.
  split; [reflexivity|]. split; [reflexivity|]. split; [reflexivity|].
  split; [reflexivity|]. split; [reflexivity|]. split; [exact Hne|].
  exact (second_open_takes_over Sim.flashlog Sim.flashlog
           (Some (Sim.bytes "w")) (Some (Sim.bytes "w"))
           (Some (Sim.bytes "lost")) 1 4
           Sim.start 4864 Sim.opened 5120 Sim.opened_twice 3 4
           eq_refl eq_refl eq_refl eq_refl eq_refl eq_refl Hne).
Defined.


(** A truncate to [2^32 + 7] bytes is the same call as a truncate to 7
    bytes. *)
Lemma truncate_length_low_bits_witness :
  endswith Sim.other_txt PATH_ENDING ≠ 1 ∧
  ∃ l r p',
    truncate Sim.other_txt 7 Sim.opened = Some (r, p') ∧
    calls p' = calls Sim.opened ++ [Ev_truncate Sim.other_txt l r] ∧
    (l - 7) mod 2 ^ 32 = 0 ∧
    (0 ≤ 7 < 2 ^ 31 → l = 7) ∧
    ∀ length',
      (length' - 7) mod 2 ^ 32 = 0 →
      truncate Sim.other_txt length' Sim.opened = Some (r, p').
Proof.
  assert (Hne : endswith Sim.other_txt PATH_ENDING ≠ 1)
    by (vm_compute; discriminate).
  split; [exact Hne|].
  exact (truncate_length_low_bits Sim.other_txt 7 Sim.opened Hne).
Defined.

Example sim_truncate_4GiB :
  ∃ p, truncate (Some (Sim.bytes "/tmp/other.txt")) (2 ^ 32) Sim.opened =
         Some (0, p) ∧
       Sim.truncated (os p) = [(Sim.bytes "/tmp/other.txt", 0)].
Proof. eexists. split; reflexivity. Qed.
